(** * DatabaseModal: the draft reducer and the submission flow

    A shallow embedding of
    [superset-frontend/src/views/CRUD/data/database/DatabaseModal/index.tsx]:
    the reducer [dbReducer] that maintains the draft of a database record,
    and the parts of the component that read the draft and talk to the
    collaborators of the modal: [testConnection], [onClose], [onSave],
    [disableSave], and the effect that merges the fetched record.

    JavaScript values are embedded untyped, because the reducer stores
    whatever the payload carries under a computed key; a [TypeError] raised
    by the source is a result of its own. *)

From Stdlib Require Import ZArith NArith String Ascii.
From stdpp Require Import gmap list fin_maps.

Local Open Scope Z_scope.

(** ** Strings *)

(** A JavaScript string is a sequence of UTF-16 code units. *)
Abbreviation jsstring := (list N).

(** A literal of the source, written with the characters of its text
    (all of them ASCII in this file). *)
Definition lit (s : string) : jsstring :=
  map N_of_ascii (list_ascii_of_string s).

(** The code units that [String.prototype.trim] removes: ECMAScript's
    WhiteSpace and LineTerminator code points, which all lie in the basic
    plane. *)
Definition is_whitespace (c : N) : bool :=
  ((9 <=? c) && (c <=? 13) ||
   (c =? 32) || (c =? 160) || (c =? 5760) ||
   ((8192 <=? c) && (c <=? 8202)) ||
   (c =? 8232) || (c =? 8233) || (c =? 8239) || (c =? 8287) ||
   (c =? 12288) || (c =? 65279))%N.

Fixpoint trimStart (s : jsstring) : jsstring :=
  match s with
  | c :: s' => if is_whitespace c then trimStart s' else s
  | [] => []
  end.

Definition trimEnd (s : jsstring) : jsstring := rev (trimStart (rev s)).

(** [String.prototype.trim]. *)
Definition trim (s : jsstring) : jsstring := trimEnd (trimStart s).

(** What the claims call leading and trailing whitespace. *)
Definition leading_whitespace (s : jsstring) : bool :=
  match s with
  | c :: _ => is_whitespace c
  | [] => false
  end.

Definition trailing_whitespace (s : jsstring) : bool :=
  leading_whitespace (rev s).

Definition trimmed (s : jsstring) : Prop :=
  leading_whitespace s = false /\ trailing_whitespace s = false.

(** ** Values *)

(** The values a draft holds. Numbers are the integers the backend uses as
    identifiers (no [NaN], no fractions); an object value is a JSON
    object. *)
#[warnings="-register-all"]
Inductive JSValue : Type :=
| VUndefined
| VNull
| VBool (b : bool)
| VNumber (n : Z)
| VString (s : jsstring)
| VObject (fields : list (jsstring * JSValue)).

(** ToBoolean. *)
Definition truthy (v : JSValue) : bool :=
  match v with
  | VUndefined | VNull => false
  | VBool b => b
  | VNumber n => negb (n =? 0)
  | VString s => match s with [] => false | _ => true end
  | VObject _ => true
  end.

(** [a || b] and [a && b]. *)
Definition js_or (a b : JSValue) : JSValue := if truthy a then a else b.
Definition js_and (a b : JSValue) : JSValue := if truthy a then b else a.

(** An object is a finite map from property names to values; a property
    may be present and hold [undefined]. *)
Abbreviation object := (gmap jsstring JSValue).

(** [o?.k] on a nullable object: [undefined] when [o] is [null] or has no
    property [k]. *)
Definition get (o : option object) (k : jsstring) : JSValue :=
  match o with
  | Some m => default VUndefined (m !! k)
  | None => VUndefined
  end.

(** The outcome of a piece of source: a value, or the [TypeError] the
    runtime raises. *)
Inductive result (A : Type) : Type :=
| Ok (a : A)
| TypeError.
Arguments Ok {A} a.
Arguments TypeError {A}.

(** [v?.trim()]: short-circuits to [undefined] on a nullish [v], trims a
    string, and raises on every other value, which has no [trim] method. *)
Definition opt_trim (v : JSValue) : result JSValue :=
  match v with
  | VUndefined | VNull => Ok VUndefined
  | VString s => Ok (VString (trim s))
  | VBool _ | VNumber _ | VObject _ => TypeError
  end.

(** The property names of [DatabaseObject] that the component mentions. *)
Definition database_name : jsstring := lit "database_name".
Definition sqlalchemy_uri : jsstring := lit "sqlalchemy_uri".
Definition impersonate_user : jsstring := lit "impersonate_user".
Definition extra : jsstring := lit "extra".
Definition encrypted_extra : jsstring := lit "encrypted_extra".
Definition server_cert : jsstring := lit "server_cert".
Definition id : jsstring := lit "id".

(** ** The reducer *)

Inductive ActionType : Type :=
| textChange
| inputChange
| editorChange
| fetched
| initialLoad
| reset.

(** The numbers TypeScript gives the members of the enum. *)
Definition ActionType_code (t : ActionType) : Z :=
  match t with
  | textChange => 0
  | inputChange => 1
  | editorChange => 2
  | fetched => 3
  | initialLoad => 4
  | reset => 5
  end.

(** An optional property of a payload is [None] when it is left out. [json]
    has type [{}], any value. *)
Record DBReducerPayloadType : Type := {
  target : option jsstring;
  name : jsstring;
  json : JSValue;
  type : option jsstring;
  checked : option bool;
  value : option jsstring;
}.

Definition of_checked (c : option bool) : JSValue :=
  match c with Some b => VBool b | None => VUndefined end.

Definition of_value (v : option jsstring) : JSValue :=
  match v with Some s => VString s | None => VUndefined end.

(** Whether a value is one of the six members of the enum, as the [case]
    labels of the [switch] compare it. *)
Definition listed (ty : JSValue) : bool :=
  match ty with
  | VNumber n =>
      existsb (λ t, n =? ActionType_code t)
        [textChange; inputChange; editorChange; fetched; initialLoad; reset]
  | _ => false
  end.

(** The three variants of [DBReducerActionType]. [Unlisted] stands for an
    action object whose [type] is none of the six members of the enum;
    [onChange] builds actions from [any], so the [switch] has a [default]. *)
Inductive DBReducerActionType : Type :=
| TextChange (payload : DBReducerPayloadType)
| InputChange (payload : DBReducerPayloadType)
| EditorChange (payload : DBReducerPayloadType)
| Fetched (payload : object)
| InitialLoad (payload : object)
| Reset
| Unlisted (ty : JSValue) (unlisted : listed ty = false).

(** The [type] property of an action. *)
Definition action_type (action : DBReducerActionType) : JSValue :=
  match action with
  | TextChange _ => VNumber (ActionType_code textChange)
  | InputChange _ => VNumber (ActionType_code inputChange)
  | EditorChange _ => VNumber (ActionType_code editorChange)
  | Fetched _ => VNumber (ActionType_code fetched)
  | InitialLoad _ => VNumber (ActionType_code initialLoad)
  | Reset => VNumber (ActionType_code reset)
  | Unlisted ty _ => ty
  end.

(** [trimmedState], the object the reducer builds before its [switch]. *)
Definition trimmedState (state : option object) : result object :=
  match opt_trim (get state database_name) with
  | Ok n =>
      Ok (<[sqlalchemy_uri := js_or (get state sqlalchemy_uri) (VString [])]>
            (<[database_name := js_or n (VString [])]> (default ∅ state)))
  | TypeError => TypeError
  end.

Definition dbReducer (state : option object) (action : DBReducerActionType)
  : result (option object) :=
  match trimmedState state with
  | TypeError => TypeError
  | Ok base =>
      match action with
      | InputChange payload =>
          if decide (type payload = Some (lit "checkbox"))
          then Ok (Some (<[name payload := of_checked (checked payload)]> base))
          else Ok (Some (<[name payload := of_value (value payload)]> base))
      | EditorChange payload =>
          Ok (Some (<[name payload := json payload]> base))
      | TextChange payload =>
          Ok (Some (<[name payload := of_value (value payload)]> base))
      | InitialLoad payload | Fetched payload =>
          Ok (Some (payload ∪ base))
      | Reset | Unlisted _ _ =>
          Ok (Some ∅)
      end
  end.

(** What React does with the actions dispatched since the last render: the
    reducer is applied to them in order. *)
Fixpoint reduce_all (state : option object) (actions : list DBReducerActionType)
  : result (option object) :=
  match actions with
  | [] => Ok state
  | a :: rest =>
      match dbReducer state a with
      | Ok state' => reduce_all state' rest
      | TypeError => TypeError
      end
  end.

(** ** The component *)

(** The object literal [connection] of [testConnection]. *)
Module Connection.
Record t : Type := {
  sqlalchemy_uri : JSValue;
  database_name : JSValue;
  impersonate_user : JSValue;
  extra : JSValue;
  encrypted_extra : JSValue;
  server_cert : JSValue;
}.
End Connection.

(** The calls the component makes to its collaborators, in the order it
    makes them. [SetDB] is a dispatch to the reducer. A toast carries the
    message as the source writes it, before [t] translates it. *)
Inductive event : Type :=
| AddDangerToast (msg : jsstring)
| TestDatabaseConnection (connection : Connection.t)
| SetDB (action : DBReducerActionType)
| OnHide
| OnDatabaseAdd
| UpdateResource (id : JSValue) (update : object)
| CreateResource (db : object).

(** The draft [db] as of the last render, the actions dispatched since, and
    the calls made so far. *)
Record World : Type := {
  db : option object;
  pending : list DBReducerActionType;
  log : list event;
}.

(** Handlers run in a state monad over [World] that can raise. *)
Definition M (A : Type) : Type := World -> result (A * World).

#[global] Instance M_ret : MRet M := fun A a w => Ok (a, w).

#[global] Instance M_bind : MBind M := fun A B k m w =>
  match m w with
  | Ok (a, w') => k a w'
  | TypeError => TypeError
  end.

Definition lift {A} (r : result A) : M A :=
  fun w => match r with Ok a => Ok (a, w) | TypeError => TypeError end.

Definition read_db : M (option object) := fun w => Ok (db w, w).

Definition write_db (d : option object) : M unit :=
  fun w => Ok (tt, {| db := d; pending := pending w; log := log w |}).

Definition emit (e : event) : M unit :=
  fun w => Ok (tt, {| db := db w; pending := pending w; log := log w ++ [e] |}).

(** [setDB], the dispatch function of [useReducer]: the action is queued,
    and the reducer runs on it at the next render. *)
Definition setDB (action : DBReducerActionType) : M unit :=
  fun w => Ok (tt, {| db := db w; pending := pending w ++ [action];
                      log := log w ++ [SetDB action] |}).

(** A render brings the draft up to date with the queued actions. *)
Definition render (w : World) : result World :=
  match reduce_all (db w) (pending w) with
  | Ok d => Ok {| db := d; pending := []; log := log w |}
  | TypeError => TypeError
  end.

(** The props the handlers read: the record to edit, and whether the
    optional callback [onDatabaseAdd] was passed. *)
Record DatabaseModalProps : Type := {
  database : option object;
  has_onDatabaseAdd : bool;
}.

Section DatabaseModal.

Variable props : DatabaseModalProps.

Definition isEditMode : bool :=
  match database props with Some _ => true | None => false end.

Definition testConnection : M unit :=
  db ← read_db ;
  if negb (truthy (get db sqlalchemy_uri)) then
    emit (AddDangerToast (lit "Please enter a SQLAlchemy URI to test"))
  else
    n ← lift (opt_trim (get db database_name)) ;
    emit (TestDatabaseConnection {|
      Connection.sqlalchemy_uri := js_or (get db sqlalchemy_uri) (VString []);
      Connection.database_name := js_or n VUndefined;
      Connection.impersonate_user := js_or (get db impersonate_user) VUndefined;
      Connection.extra := js_or (get db extra) VUndefined;
      Connection.encrypted_extra := js_or (get db encrypted_extra) VUndefined;
      Connection.server_cert := js_or (get db server_cert) VUndefined;
    |}).

Definition onClose : M unit :=
  setDB Reset ;;
  emit OnHide.

(** The function both branches of [onSave] pass to [then]; it runs once
    the request has settled, with what the request resolved to. *)
Definition saved (result : JSValue) : M unit :=
  if truthy result then
    (if has_onDatabaseAdd props then emit OnDatabaseAdd else mret tt) ;;
    onClose
  else mret tt.

(** [onSave] returns the continuation it registered on the promise of the
    request it made, if it made one. *)
Definition onSave : M (option (JSValue -> M unit)) :=
  db ← read_db ;
  if isEditMode then
    let update := delete id (default ∅ db) in
    if truthy (get db id) then
      emit (UpdateResource (get db id) update) ;;
      mret (Some saved)
    else mret None
  else
    match db with
    | Some d =>
        n ← lift (opt_trim (get db database_name)) ;
        let d' := <[database_name := n]> d in
        write_db (Some d') ;;
        emit (CreateResource d') ;;
        mret (Some saved)
    | None => mret None
    end.

Definition disableSave (db : option object) : result bool :=
  match opt_trim (get db database_name) with
  | Ok n => Ok (negb (truthy (js_and n (get db sqlalchemy_uri))))
  | TypeError => TypeError
  end.

Definition onChange (action : DBReducerActionType) : M unit :=
  setDB action.

(** The effect that depends on [dbFetched], the resource of the detail
    fetch ([null] until it has completed). *)
Definition fetched_payload (dbFetched : object) : object :=
  <[extra := get (Some dbFetched) extra]>
    (<[impersonate_user := get (Some dbFetched) impersonate_user]>
       (<[server_cert := get (Some dbFetched) server_cert]>
          (<[sqlalchemy_uri := get (Some dbFetched) sqlalchemy_uri]> ∅))).

Definition effect_dbFetched (dbFetched : option object) : M unit :=
  match dbFetched with
  | Some f => setDB (Fetched (fetched_payload f))
  | None => mret tt
  end.

End DatabaseModal.

(** ** Vocabulary of the statements *)

(** The values on which [v?.trim()] does not raise: the ones the type
    [string | undefined] of [database_name] admits, and [null]. *)
Definition string_or_nullish (v : JSValue) : bool :=
  match v with
  | VUndefined | VNull | VString _ => true
  | VBool _ | VNumber _ | VObject _ => false
  end.

(** A draft whose name, if it has one, is a string. *)
Definition name_typed (state : option object) : bool :=
  string_or_nullish (get state database_name).

(** The trimmed name of a draft, empty when the draft has no name. *)
Definition trimmed_name (state : option object) : jsstring :=
  match get state database_name with
  | VString s => trim s
  | _ => []
  end.

Definition uri_typed (state : option object) : bool :=
  string_or_nullish (get state sqlalchemy_uri).

(** The URI of a draft, empty when the draft has none. *)
Definition uri_of (state : option object) : jsstring :=
  match get state sqlalchemy_uri with
  | VString s => s
  | _ => []
  end.

(** The property a field-change action writes and the value it writes
    there; [None] for the other actions. *)
Definition written (action : DBReducerActionType) : option (jsstring * JSValue) :=
  match action with
  | TextChange p => Some (name p, of_value (value p))
  | InputChange p =>
      Some (name p,
            if decide (type p = Some (lit "checkbox"))
            then of_checked (checked p) else of_value (value p))
  | EditorChange p => Some (name p, json p)
  | Fetched _ | InitialLoad _ | Reset | Unlisted _ _ => None
  end.



(** A field change that leaves the name a string: it writes another
    property, or writes the name a string (or nothing). *)
Definition name_preserving (action : DBReducerActionType) : bool :=
  match written action with
  | Some (k, v) => if decide (k = database_name) then string_or_nullish v else true
  | None => false
  end.

(** The four properties the effect copies from the fetched record. *)
Definition fetched_keys : list jsstring :=
  [extra; impersonate_user; server_cert; sqlalchemy_uri].

(** The world after further calls. *)
Definition logged (w : World) (es : list event) : World :=
  {| db := db w; pending := pending w; log := log w ++ es |}.

(** The world after further dispatches. *)
Definition dispatched (w : World) (actions : list DBReducerActionType) : World :=
  {| db := db w; pending := pending w ++ actions; log := log w |}.

(** A value of the draft as the connection payload carries it: itself
    when truthy, left out otherwise. *)
Definition or_omitted (v : JSValue) : JSValue :=
  match v with
  | VUndefined | VNull | VBool false | VNumber 0 | VString [] => VUndefined
  | _ => v
  end.

(** The name of a draft after [onSave] has trimmed it in place. *)
Definition name_in_place (d : object) : JSValue :=
  match d !! database_name with
  | Some (VString s) => VString (trim s)
  | _ => VUndefined
  end.

(** The world once the modal has closed and rendered again. *)
Definition closed (w : World) (es : list event) : World :=
  {| db := Some ∅; pending := []; log := log w ++ es |}.

(** Two property names of the source are different strings. *)
Ltac distinct_keys := by (intros Hkeys; vm_compute in Hkeys; discriminate Hkeys).

(** ** The form handlers and the lifecycle *)

(** The controls the handlers of the form read. *)
Module HTMLInputElement.
Record t : Type := {
  type : jsstring;
  name : jsstring;
  checked : bool;
  value : jsstring;
}.
End HTMLInputElement.

Module HTMLTextAreaElement.
Record t : Type := {
  name : jsstring;
  value : jsstring;
}.
End HTMLTextAreaElement.

(** [onInputChange], as both forms get it. *)
Definition onInputChange (target : HTMLInputElement.t) : M unit :=
  onChange (InputChange {|
    target := None;
    name := HTMLInputElement.name target;
    json := VUndefined;
    type := Some (HTMLInputElement.type target);
    checked := Some (HTMLInputElement.checked target);
    value := Some (HTMLInputElement.value target);
  |}).

Definition onTextChange (target : HTMLTextAreaElement.t) : M unit :=
  onChange (TextChange {|
    target := None;
    name := HTMLTextAreaElement.name target;
    json := VUndefined;
    type := None;
    checked := None;
    value := Some (HTMLTextAreaElement.value target);
  |}).

(** [onEditorChange] takes the payload itself, an object with a [name] and
    a [json]. *)
Definition onEditorChange (name : jsstring) (json : JSValue) : M unit :=
  onChange (EditorChange {|
    target := None;
    name := name;
    json := json;
    type := None;
    checked := None;
    value := None;
  |}).

Definition DEFAULT_TAB_KEY : jsstring := lit "1".

(** The component with its other hooks: the active tab, and the calls made
    to [fetchResource], by the identifier they ask for. *)
Record Lifecycle : Type := {
  world : World;
  tabKey : jsstring;
  fetches : list JSValue;
}.

Definition L (A : Type) : Type := Lifecycle -> result (A * Lifecycle).

#[global] Instance L_ret : MRet L := fun A a l => Ok (a, l).

#[global] Instance L_bind : MBind L := fun A B k m l =>
  match m l with
  | Ok (a, l') => k a l'
  | TypeError => TypeError
  end.

(** A handler of the component, run on the world of the lifecycle. *)
Definition in_world {A} (m : M A) : L A :=
  fun l =>
    match m (world l) with
    | Ok (a, w') => Ok (a, {| world := w'; tabKey := tabKey l; fetches := fetches l |})
    | TypeError => TypeError
    end.

Definition setTabKey (key : jsstring) : L unit :=
  fun l => Ok (tt, {| world := world l; tabKey := key; fetches := fetches l |}).

Definition fetchResource (id : JSValue) : L unit :=
  fun l => Ok (tt, {| world := world l; tabKey := tabKey l;
                      fetches := fetches l ++ [id] |}).

Section Lifecycle.

Variable props : DatabaseModalProps.
Variable show : bool.
Variable dbLoading : bool.

(** The function [fetchDB] passes to [catch], applied to the message of
    the error; [%s] of the text stands filled in. *)
Definition fetch_failed (message : jsstring) : M unit :=
  emit (AddDangerToast
          (lit "Sorry there was an error fetching database information: " ++ message)).

(** [fetchDB] returns the handler it registered on the promise of the
    fetch, if it started one. *)
Definition fetchDB : L (option (jsstring -> M unit)) :=
  if isEditMode props && truthy (get (database props) id) then
    if negb dbLoading then
      let id' := js_or (get (database props) id) (VNumber 0) in
      fetchResource id' ;;
      mret (Some fetch_failed)
    else mret None
  else mret None.

(** The effect that depends on [show] and [database]. *)
Definition effect_show_database : L (option (jsstring -> M unit)) :=
  match database props with
  | Some record => in_world (setDB (InitialLoad record))
  | None => mret tt
  end ;;
  (if show then setTabKey DEFAULT_TAB_KEY else mret tt) ;;
  match database props with
  | Some _ => if show then fetchDB else mret None
  | None => mret None
  end.

Definition tabChange (key : jsstring) : L unit := setTabKey key.

End Lifecycle.

(** ** Vocabulary of the further statements *)

(** The draft a reduction starts from: the state with its name trimmed and
    its URI defaulted. *)
Definition normalised (state : option object) : object :=
  <[sqlalchemy_uri := js_or (get state sqlalchemy_uri) (VString [])]>
    (<[database_name := VString (trimmed_name state)]> (default ∅ state)).

(** An action after which the name of the draft is still a string: a field
    change as above, a merge whose payload has a string for a name or none,
    a reset. *)
Definition name_safe (action : DBReducerActionType) : bool :=
  match action with
  | TextChange _ | InputChange _ | EditorChange _ => name_preserving action
  | Fetched payload | InitialLoad payload =>
      string_or_nullish (get (Some payload) database_name)
  | Reset | Unlisted _ _ => true
  end.

(** One event of the form. *)
Inductive FormEvent : Type :=
| InputEvent (target : HTMLInputElement.t)
| TextEvent (target : HTMLTextAreaElement.t).

Definition handle (e : FormEvent) : M unit :=
  match e with
  | InputEvent target => onInputChange target
  | TextEvent target => onTextChange target
  end.

Fixpoint handle_all (es : list FormEvent) : M unit :=
  match es with
  | [] => mret tt
  | e :: rest => handle e ;; handle_all rest
  end.

(** The action a form event dispatches. *)
Definition event_action (e : FormEvent) : DBReducerActionType :=
  match e with
  | InputEvent target =>
      InputChange {|
        target := None;
        name := HTMLInputElement.name target;
        json := VUndefined;
        type := Some (HTMLInputElement.type target);
        checked := Some (HTMLInputElement.checked target);
        value := Some (HTMLInputElement.value target);
      |}
  | TextEvent target =>
      TextChange {|
        target := None;
        name := HTMLTextAreaElement.name target;
        json := VUndefined;
        type := None;
        checked := None;
        value := Some (HTMLTextAreaElement.value target);
      |}
  end.

(** The property a form event names, and whether it comes from a
    checkbox. *)
Definition event_name (e : FormEvent) : jsstring :=
  match e with
  | InputEvent target => HTMLInputElement.name target
  | TextEvent target => HTMLTextAreaElement.name target
  end.

Definition from_checkbox (e : FormEvent) : bool :=
  match e with
  | InputEvent target => bool_decide (HTMLInputElement.type target = lit "checkbox")
  | TextEvent _ => false
  end.

(** The event does not come from a checkbox named after the name or the
    URI. *)
Definition text_named (e : FormEvent) : bool :=
  negb (from_checkbox e &&
        (bool_decide (event_name e = database_name) ||
         bool_decide (event_name e = sqlalchemy_uri))).

(** ** [trim] *)

Lemma trimStart_leading s : leading_whitespace (trimStart s) = false.
Proof.
  induction s as [|c s IH]; [done|].
  simpl. destruct (is_whitespace c) eqn:Hc; [done|]. by simpl.
Qed.

Lemma trimStart_suffix s : ∃ p, s = p ++ trimStart s.
Proof.
  induction s as [|c s [p IH]]; [by exists []|].
  simpl. destruct (is_whitespace c).
  - exists (c :: p). simpl. by f_equal.
  - by exists [].
Qed.

Lemma trimStart_fixed s : leading_whitespace s = false → trimStart s = s.
Proof. destruct s as [|c s]; [done|]. simpl. by intros ->. Qed.

Lemma trimEnd_prefix s : ∃ p, s = trimEnd s ++ p.
Proof.
  unfold trimEnd. destruct (trimStart_suffix (rev s)) as [p Hp].
  exists (rev p). rewrite <- rev_app_distr, <- Hp. by rewrite rev_involutive.
Qed.

Lemma trimEnd_trailing s : trailing_whitespace (trimEnd s) = false.
Proof.
  unfold trailing_whitespace, trimEnd. rewrite rev_involutive.
  apply trimStart_leading.
Qed.

Lemma trimEnd_leading s :
  leading_whitespace s = false → leading_whitespace (trimEnd s) = false.
Proof.
  intros Hs. destruct (trimEnd_prefix s) as [p Hp].
  destruct (trimEnd s) as [|c t]; [done|].
  rewrite Hp in Hs. exact Hs.
Qed.

Lemma trimEnd_fixed s : trailing_whitespace s = false → trimEnd s = s.
Proof.
  unfold trailing_whitespace, trimEnd. intros Hs.
  rewrite trimStart_fixed by done. apply rev_involutive.
Qed.

Lemma trim_trimmed s : trimmed (trim s).
Proof.
  split; [|apply trimEnd_trailing].
  apply trimEnd_leading, trimStart_leading.
Qed.

Lemma trim_fixed s : trimmed s → trim s = s.
Proof.
  intros [Hl Ht]. unfold trim. rewrite (trimStart_fixed s Hl).
  by apply trimEnd_fixed.
Qed.

Lemma trim_idempotent s : trim (trim s) = trim s.
Proof. apply trim_fixed, trim_trimmed. Qed.

(** ** The normalised base *)

Lemma opt_trim_typed v :
  string_or_nullish v = true →
  opt_trim v = Ok (match v with VString s => VString (trim s) | _ => VUndefined end).
Proof. by destruct v. Qed.

Lemma opt_trim_raises v : opt_trim v = TypeError ↔ string_or_nullish v = false.
Proof. by destruct v. Qed.

Lemma opt_trim_name state :
  name_typed state = true →
  ∃ n, opt_trim (get state database_name) = Ok n ∧
       js_or n (VString []) = VString (trimmed_name state).
Proof.
  unfold name_typed, trimmed_name. intros Hs.
  destruct (get state database_name) as [| | | |s|]; try done;
    try (by eexists; split; [reflexivity|]).
  exists (VString (trim s)). split; [done|].
  unfold js_or. simpl. by destruct (trim s).
Qed.

(** On a draft with a typed name the reducer's base is the draft with its
    name trimmed and its URI defaulted to the empty string. *)
Lemma trimmedState_typed state :
  name_typed state = true →
  trimmedState state =
    Ok (<[sqlalchemy_uri := js_or (get state sqlalchemy_uri) (VString [])]>
          (<[database_name := VString (trimmed_name state)]> (default ∅ state))).
Proof.
  intros Hs. unfold trimmedState.
  destruct (opt_trim_name state Hs) as (n & -> & ->). done.
Qed.


Lemma key_database_name_uri : database_name ≠ sqlalchemy_uri.
Proof. by vm_compute. Qed.

(** ** The reducer: reset, totality, checkboxes *)

Lemma listed_codes ty :
  listed ty = true ↔ ∃ t, ty = VNumber (ActionType_code t).
Proof.
  split.
  - destruct ty as [| | |n| |]; try done. simpl. rewrite !orb_true_iff.
    intros [H|[H|[H|[H|[H|[H|H]]]]]]; try done; apply Z.eqb_eq in H as ->.
    + by exists textChange.
    + by exists inputChange.
    + by exists editorChange.
    + by exists fetched.
    + by exists initialLoad.
    + by exists reset.
  - intros [t ->]. by destruct t.
Qed.

(** The [type] of an action is off the list exactly for [Unlisted]. *)
Lemma unlisted_action action :
  listed (action_type action) = false ↔ ∃ ty H, action = Unlisted ty H.
Proof.
  split.
  - destruct action; try done. by eexists _, _.
  - by intros (ty & H & ->).
Qed.

Lemma reset_reduces_to_empty state :
  name_typed state = true → dbReducer state Reset = Ok (Some ∅).
Proof. intros Hs. unfold dbReducer. by rewrite trimmedState_typed. Qed.

(** C9. A reset action returns the empty draft, an object and not [null],
    whatever the draft was before ([null] included). *)
Theorem reset_returns_empty_draft (state : option object) :
  name_typed state = true →
  dbReducer state Reset = Ok (Some ∅) ∧
  dbReducer state Reset ≠ Ok None ∧
  dbReducer state Reset = dbReducer None Reset.
Proof.
  intros Hs. rewrite reset_reduces_to_empty by done.
  by rewrite reset_reduces_to_empty.
Qed.

Lemma reset_returns_empty_draft_witness :
  dbReducer (Some {[ database_name := VString (lit " Prod ");
                     id := VNumber 7 ]}) Reset = Ok (Some ∅).
Proof. apply reset_returns_empty_draft. by vm_compute. Defined.

(** C10. The reducer returns an object, never [null] and never an
    exception, on every draft ([null] included) and every action; an action
    whose type is none of the six members of [ActionType] gets the empty
    draft, as a reset does. *)
Theorem dbReducer_total (state : option object) (action : DBReducerActionType) :
  name_typed state = true →
  (∃ d : object, dbReducer state action = Ok (Some d)) ∧
  ((∀ t, action_type action ≠ VNumber (ActionType_code t)) →
   dbReducer state action = Ok (Some ∅) ∧
   dbReducer state action = dbReducer state Reset).
Proof.
  intros Hs. unfold dbReducer. rewrite trimmedState_typed by done. split.
  - destruct action; try (by eexists). case_decide; by eexists.
  - intros Hno. destruct action; try done.
    + by destruct (Hno textChange).
    + by destruct (Hno inputChange).
    + by destruct (Hno editorChange).
    + by destruct (Hno fetched).
    + by destruct (Hno initialLoad).
Qed.

Lemma dbReducer_total_witness :
  let other := Unlisted (VNumber 6) eq_refl in
  (∃ d : object, dbReducer None other = Ok (Some d)) ∧
  dbReducer None other = Ok (Some ∅) ∧
  dbReducer None other = dbReducer None Reset.
Proof.
  intros other.
  destruct (dbReducer_total None other eq_refl) as [Hd Hu].
  split; [exact Hd|]. apply Hu. intros t. by destruct t.
Defined.



(** ** Sequences of field changes *)

Lemma reduce_all_app state actions actions' :
  reduce_all state (actions ++ actions') =
    match reduce_all state actions with
    | Ok state' => reduce_all state' actions'
    | TypeError => TypeError
    end.
Proof.
  revert state. induction actions as [|a actions IH]; intros state; [done|].
  simpl. destruct (dbReducer state a); [apply IH|done].
Qed.


(** A field change puts its value over the normalised base. *)
Lemma dbReducer_written state action k v :
  written action = Some (k, v) →
  name_typed state = true →
  dbReducer state action =
    Ok (Some (<[k := v]>
          (<[sqlalchemy_uri := js_or (get state sqlalchemy_uri) (VString [])]>
             (<[database_name := VString (trimmed_name state)]> (default ∅ state))))).
Proof.
  intros Hw Hs. unfold dbReducer. rewrite trimmedState_typed by done.
  destruct action; simpl in Hw; try done; try (by injection Hw as <- <-).
  case_decide; by injection Hw as <- <-.
Qed.



Lemma name_preserving_step state action :
  name_typed state = true →
  name_preserving action = true →
  ∃ d, dbReducer state action = Ok (Some d) ∧ name_typed (Some d) = true.
Proof.
  intros Hs Hp. unfold name_preserving in Hp.
  destruct (written action) as [[k v]|] eqn:Hw; [|done].
  eexists. split; [by apply dbReducer_written|].
  unfold name_typed, get. case_decide as Hk.
  - subst k. by rewrite lookup_insert_eq.
  - rewrite lookup_insert_ne by done.
    rewrite lookup_insert_ne by (symmetry; apply key_database_name_uri).
    by rewrite lookup_insert_eq.
Qed.


(** Why a run needs [name_preserving]: an input change from a checkbox whose
    control is named [database_name] stores a boolean as the name, and the
    normalisation of the next action, whatever it is, raises on it. *)
Example checkbox_as_name_raises :
  reduce_all None
    [InputChange {| target := None; name := database_name; json := VUndefined;
                    type := Some (lit "checkbox"); checked := Some true;
                    value := Some (lit "on") |};
     Reset] = TypeError.
Proof. by vm_compute. Qed.





(** ** The merge of the fetched record *)

Lemma fetched_payload_inside dbFetched k :
  k ∈ fetched_keys → fetched_payload dbFetched !! k = Some (get (Some dbFetched) k).
Proof.
  unfold fetched_keys, fetched_payload.
  rewrite !elem_of_cons, elem_of_nil. intros [->|[->|[->|[->|[]]]]].
  - by rewrite lookup_insert_eq.
  - rewrite lookup_insert_ne by distinct_keys. by rewrite lookup_insert_eq.
  - do 2 rewrite lookup_insert_ne by distinct_keys. by rewrite lookup_insert_eq.
  - do 3 rewrite lookup_insert_ne by distinct_keys. by rewrite lookup_insert_eq.
Qed.

Lemma fetched_payload_outside dbFetched k :
  k ∉ fetched_keys → fetched_payload dbFetched !! k = None.
Proof.
  unfold fetched_keys, fetched_payload.
  rewrite !not_elem_of_cons. intros (? & ? & ? & ? & _).
  by rewrite !lookup_insert_ne.
Qed.

Lemma database_name_not_fetched : database_name ∉ fetched_keys.
Proof.
  unfold fetched_keys. rewrite !not_elem_of_cons.
  repeat split; try distinct_keys. apply not_elem_of_nil.
Qed.

(** C2, as the code has it. When the fetch has completed the effect
    dispatches one [fetched] action that carries the four properties and no
    other. The reducer writes those four from the fetched record, sets the
    name to its trimmed value, and leaves every other property of the draft
    as it was; a name that was trimmed already stays. *)
Theorem fetched_merge_frame
    (w : World) (dbFetched : object) (state : option object) :
  name_typed state = true →
  effect_dbFetched (Some dbFetched) w =
    Ok (tt, logged (dispatched w [Fetched (fetched_payload dbFetched)])
                   [SetDB (Fetched (fetched_payload dbFetched))]) ∧
  ∃ d : object,
    dbReducer state (Fetched (fetched_payload dbFetched)) = Ok (Some d) ∧
    (∀ k, k ∈ fetched_keys → d !! k = Some (get (Some dbFetched) k)) ∧
    (∀ k, k ∉ fetched_keys → k ≠ database_name → d !! k = default ∅ state !! k) ∧
    d !! database_name = Some (VString (trimmed_name state)) ∧
    (∀ s, default ∅ state !! database_name = Some (VString s) → trimmed s →
          d !! database_name = default ∅ state !! database_name).
Proof.
  intros Hs. split; [done|].
  unfold dbReducer. rewrite trimmedState_typed by done.
  eexists. split; [reflexivity|].
  assert (∀ k, k ∉ fetched_keys → k ≠ sqlalchemy_uri) as Huri.
  { intros k Hk ->. apply Hk. unfold fetched_keys. set_solver. }
  assert ((fetched_payload dbFetched ∪
             <[sqlalchemy_uri := js_or (get state sqlalchemy_uri) (VString [])]>
               (<[database_name := VString (trimmed_name state)]> (default ∅ state)))
          !! database_name = Some (VString (trimmed_name state))) as Hname.
  { rewrite lookup_union_r by apply fetched_payload_outside, database_name_not_fetched.
    rewrite lookup_insert_ne by (symmetry; apply key_database_name_uri).
    by rewrite lookup_insert_eq. }
  split; [|split; [|split]].
  - intros k Hk. apply lookup_union_Some_l. by apply fetched_payload_inside.
  - intros k Hk Hn. rewrite lookup_union_r by by apply fetched_payload_outside.
    rewrite lookup_insert_ne by (symmetry; by apply Huri).
    by rewrite lookup_insert_ne.
  - exact Hname.
  - intros s Hlook Htrim. rewrite Hname, Hlook. unfold trimmed_name.
    destruct state as [m|]; simpl in *; [|by rewrite lookup_empty in Hlook].
    rewrite Hlook. simpl. by rewrite trim_fixed.
Qed.

Lemma fetched_merge_frame_witness :
  let record : object :=
    {[ id := VNumber 7; database_name := VString (lit "Prod");
       sqlalchemy_uri := VString (lit "mysql://...") ]} in
  let response : object :=
    {[ sqlalchemy_uri := VString (lit "mysql://new"); extra := VString (lit "{}");
       impersonate_user := VBool true; server_cert := VString (lit "X") ]} in
  ∃ d : object,
    dbReducer (Some record) (Fetched (fetched_payload response)) = Ok (Some d) ∧
    d !! sqlalchemy_uri = Some (VString (lit "mysql://new")) ∧
    d !! id = Some (VNumber 7) ∧
    d !! database_name = Some (VString (lit "Prod")).
Proof.
  intros record response.
  destruct (fetched_merge_frame {| db := Some record; pending := []; log := [] |}
              response (Some record) eq_refl)
    as (_ & d & Hd & Hin & Hout & Hname & _).
  exists d. split; [exact Hd|]. split; [|split].
  - rewrite (Hin sqlalchemy_uri) by (unfold fetched_keys; set_solver).
    reflexivity.
  - rewrite (Hout id).
    + reflexivity.
    + unfold fetched_keys. rewrite !not_elem_of_cons.
      repeat split; try distinct_keys. apply not_elem_of_nil.
    + distinct_keys.
  - rewrite Hname. reflexivity.
Defined.

(** C2 does not hold as stated: the name is not among the four properties,
    and the merge changes a name that ends in a space. *)
Lemma fetched_merge_name_counterexample :
  let draft : object :=
    {[ id := VNumber 7; database_name := VString (lit "Prod ") ]} in
  let response : object := {[ sqlalchemy_uri := VString (lit "mysql://new") ]} in
  (database_name ∉ fetched_keys) ∧
  draft !! database_name = Some (VString (lit "Prod ")) ∧
  ∃ d : object,
    dbReducer (Some draft) (Fetched (fetched_payload response)) = Ok (Some d) ∧
    d !! database_name = Some (VString (lit "Prod")) ∧
    d !! database_name ≠ draft !! database_name.
Proof.
  intros draft response. split; [apply database_name_not_fetched|].
  split; [by vm_compute|]. eexists. split; [reflexivity|].
  split; [by vm_compute|]. by vm_compute.
Qed.

(** ** Submission *)

(** The flag, on a draft with a typed name. *)
Lemma disableSave_typed db :
  name_typed db = true →
  disableSave db =
    Ok (match trimmed_name db with
        | [] => true
        | _ => negb (truthy (get db sqlalchemy_uri))
        end).
Proof.
  unfold name_typed, disableSave, trimmed_name, js_and. intros Hn.
  destruct (get db database_name) as [| | | |n|]; try done.
  simpl. by destruct (trim n).
Qed.

Lemma uri_of_empty db :
  uri_typed db = true →
  truthy (get db sqlalchemy_uri) = false ↔ uri_of db = [].
Proof.
  unfold uri_typed, uri_of.
  destruct (get db sqlalchemy_uri) as [| | | |u|]; try done.
  simpl. by destruct u.
Qed.

(** C3, as the code has it. Save is disabled exactly when the trimmed name
    of the draft is empty or its URI is empty; the flag is computed from
    the draft alone. A name that is not empty once trimmed, with a URI that
    is not empty, enables save. *)
Theorem disableSave_iff (db : option object) :
  name_typed db = true →
  uri_typed db = true →
  ∃ b : bool,
    disableSave db = Ok b ∧
    (b = true ↔ trimmed_name db = [] ∨ uri_of db = []) ∧
    (∀ n u, get db database_name = VString n → get db sqlalchemy_uri = VString u →
            trim n ≠ [] → u ≠ [] → b = false).
Proof.
  intros Hn Hu. eexists. split; [by apply disableSave_typed|].
  pose proof (uri_of_empty db Hu) as Hempty. split.
  - destruct (trimmed_name db) as [|c t]; [by split; [left|]|].
    rewrite negb_true_iff, Hempty. split; [by right|by intros [|]].
  - intros n u Hname Huri Hn' Hu'. unfold trimmed_name. rewrite Hname, Huri.
    destruct (trim n); [done|]. by destruct u.
Qed.

Lemma disableSave_iff_witness :
  disableSave (Some {[ database_name := VString (lit "My DB");
                       sqlalchemy_uri := VString (lit "postgresql://u:p@host/db") ]})
  = Ok false.
Proof.
  set (draft := Some _).
  assert (name_typed draft = true) as Hn by by vm_compute.
  assert (uri_typed draft = true) as Hu by by vm_compute.
  destruct (disableSave_iff draft Hn Hu) as (b & Hb & _ & Hen).
  rewrite Hb. f_equal.
  apply (Hen (lit "My DB") (lit "postgresql://u:p@host/db")); by vm_compute.
Defined.

(** C3 does not hold as stated: a name of one space and a URI are both
    strings that are not empty, and save stays disabled. *)
Lemma disableSave_blank_name_counterexample :
  lit " " ≠ [] ∧ lit "x" ≠ [] ∧
  disableSave (Some {[ database_name := VString (lit " ");
                       sqlalchemy_uri := VString (lit "x") ]}) = Ok true.
Proof. split; [|split]; by vm_compute. Qed.

Lemma js_or_omitted v : js_or v VUndefined = or_omitted v.
Proof.
  unfold js_or. destruct v as [| |[]|n|[]|]; try done. by destruct n.
Qed.

Lemma or_omitted_truthy v : or_omitted v = VUndefined ∨ truthy (or_omitted v) = true.
Proof. destruct v as [| |[]|n|[]|]; auto. destruct n; auto. Qed.

(** C4. Without a URI in the draft [testConnection] reports an error and
    does not call the tester. With one it calls the tester once, and
    nothing else, with the URI, the trimmed name, the impersonation flag,
    the two extras and the certificate; each of these but the URI is left
    out ([undefined]) when its value in the draft is falsy, so none of them
    is the empty string or [false]. *)
Theorem testConnection_payload (w : World) :
  (truthy (get (db w) sqlalchemy_uri) = false →
   testConnection w =
     Ok (tt, logged w [AddDangerToast (lit "Please enter a SQLAlchemy URI to test")])) ∧
  (truthy (get (db w) sqlalchemy_uri) = true →
   name_typed (db w) = true →
   ∃ c : Connection.t,
     testConnection w = Ok (tt, logged w [TestDatabaseConnection c]) ∧
     Connection.sqlalchemy_uri c = get (db w) sqlalchemy_uri ∧
     Connection.database_name c = or_omitted (VString (trimmed_name (db w))) ∧
     Connection.impersonate_user c = or_omitted (get (db w) impersonate_user) ∧
     Connection.extra c = or_omitted (get (db w) extra) ∧
     Connection.encrypted_extra c = or_omitted (get (db w) encrypted_extra) ∧
     Connection.server_cert c = or_omitted (get (db w) server_cert) ∧
     Forall (λ v, v = VUndefined ∨ truthy v = true)
       [Connection.database_name c; Connection.impersonate_user c;
        Connection.extra c; Connection.encrypted_extra c;
        Connection.server_cert c]).
Proof.
  split.
  - intros Hu. unfold testConnection, mbind, M_bind, read_db. simpl.
    by rewrite Hu.
  - intros Hu Hs. unfold testConnection, mbind, M_bind, read_db. simpl.
    rewrite Hu. simpl. unfold lift.
    rewrite opt_trim_typed by done.
    eexists. split; [reflexivity|]. simpl. rewrite !js_or_omitted.
    assert (or_omitted
              match get (db w) database_name with
              | VString s => VString (trim s)
              | _ => VUndefined
              end = or_omitted (VString (trimmed_name (db w)))) as ->.
    { unfold trimmed_name. by destruct (get (db w) database_name). }
    split; [by unfold js_or; rewrite Hu|].
    repeat (split; [reflexivity|]).
    repeat (apply Forall_cons_2; [apply or_omitted_truthy|]).
    apply Forall_nil_2.
Qed.

Lemma testConnection_payload_witness :
  let w := {| db := Some {[ database_name := VString (lit " Prod ");
                            sqlalchemy_uri := VString (lit "mysql://host/db");
                            impersonate_user := VBool false;
                            server_cert := VNull ]};
              pending := []; log := [] |} in
  ∃ c : Connection.t,
    testConnection w = Ok (tt, logged w [TestDatabaseConnection c]) ∧
    Connection.database_name c = VString (lit "Prod") ∧
    Connection.impersonate_user c = VUndefined ∧
    Connection.encrypted_extra c = VUndefined.
Proof.
  intros w. destruct (testConnection_payload w) as [_ Hcall].
  destruct Hcall as (c & Hc & _ & Hn & Hi & _ & He & _); [by vm_compute..|].
  exists c. split; [exact Hc|]. rewrite Hn, Hi, He. by vm_compute.
Defined.

(** ** Closing and saving *)

Lemma onClose_world w :
  onClose w = Ok (tt, logged (dispatched w [Reset]) [SetDB Reset; OnHide]).
Proof.
  unfold onClose, mbind, M_bind, setDB, emit, logged, dispatched. simpl.
  by rewrite <- app_assoc.
Qed.

(** Once the close sequence has run, the next render leaves the empty
    draft, whatever was queued before. *)
Lemma render_after_close w w0 es :
  render w = Ok w0 →
  name_typed (db w0) = true →
  render (logged (dispatched w [Reset]) es) = Ok (closed w es).
Proof.
  unfold render, logged, dispatched, closed. simpl. intros Hw Ht.
  rewrite reduce_all_app.
  destruct (reduce_all (db w) (pending w)) as [s|]; [|done].
  injection Hw as <-. simpl in *.
  by rewrite reset_reduces_to_empty.
Qed.

Lemma saved_falsy props result w :
  truthy result = false → saved props result w = Ok (tt, w).
Proof. intros Hr. unfold saved. by rewrite Hr. Qed.

Lemma saved_truthy props result w :
  truthy result = true →
  saved props result w =
    Ok (tt, logged (dispatched w [Reset])
              ((if has_onDatabaseAdd props then [OnDatabaseAdd] else [])
               ++ [SetDB Reset; OnHide])).
Proof.
  intros Hr. unfold saved. rewrite Hr.
  unfold mbind, M_bind. destruct (has_onDatabaseAdd props); simpl.
  - rewrite onClose_world. unfold logged, dispatched. simpl.
    by rewrite <- !app_assoc.
  - by rewrite onClose_world.
Qed.

(** C5. In edit mode [onSave] does nothing at all on a draft without an
    identifier. With one it calls the update operation with the identifier
    and with the draft less its [id]. When the request settles on a truthy
    result the caller is notified and the close sequence runs; on a falsy
    one nothing happens: the modal stays open and the draft is intact. *)
Theorem onSave_edit (props : DatabaseModalProps) (w : World) :
  isEditMode props = true →
  (truthy (get (db w) id) = false → onSave props w = Ok (None, w)) ∧
  (truthy (get (db w) id) = true →
   ∃ update : object,
     onSave props w =
       Ok (Some (saved props), logged w [UpdateResource (get (db w) id) update]) ∧
     update !! id = None ∧
     (∀ k, k ≠ id → update !! k = default ∅ (db w) !! k)) ∧
  (∀ result w', truthy result = false → saved props result w' = Ok (tt, w')) ∧
  (∀ result w', truthy result = true →
     saved props result w' =
       Ok (tt, logged (dispatched w' [Reset])
                 ((if has_onDatabaseAdd props then [OnDatabaseAdd] else [])
                  ++ [SetDB Reset; OnHide]))).
Proof.
  intros He. split; [|split; [|split]].
  - intros Hid. unfold onSave, mbind, M_bind, read_db. simpl.
    by rewrite He, Hid.
  - intros Hid. eexists. split; [|split].
    + unfold onSave, mbind, M_bind, read_db. simpl. rewrite He, Hid. reflexivity.
    + apply lookup_delete_eq.
    + intros k Hk. by apply lookup_delete_ne.
  - intros. by apply saved_falsy.
  - intros. by apply saved_truthy.
Qed.

Lemma onSave_edit_witness :
  let props := {| database := Some {[ id := VNumber 7 ]}; has_onDatabaseAdd := true |} in
  let w := {| db := Some {[ id := VNumber 7; database_name := VString (lit "Prod") ]};
              pending := []; log := [] |} in
  ∃ update : object,
    onSave props w =
      Ok (Some (saved props), logged w [UpdateResource (VNumber 7) update]) ∧
    update !! id = None ∧
    update !! database_name = Some (VString (lit "Prod")).
Proof.
  intros props w.
  destruct (onSave_edit props w eq_refl) as (_ & Hcall & _).
  destruct Hcall as (update & Hu & Hid & Hrest); [by vm_compute|].
  exists update. split; [exact Hu|]. split; [exact Hid|].
  rewrite Hrest by distinct_keys. by vm_compute.
Defined.

(** C6. In create mode, on a draft that is not [null], [onSave] first
    replaces the name of the draft by its trimmed value, in the draft
    itself, and then calls the create operation with that draft. When the
    request settles on a truthy identifier the callback of the caller runs
    (if one was passed), then the close sequence, and the next render shows
    the empty draft; on a falsy result nothing happens. *)
Theorem onSave_create (props : DatabaseModalProps) (w : World) (d : object) :
  isEditMode props = false →
  db w = Some d →
  name_typed (Some d) = true →
  let d' := <[database_name := name_in_place d]> d in
  let w' := {| db := Some d'; pending := pending w; log := log w |} in
  onSave props w = Ok (Some (saved props), logged w' [CreateResource d']) ∧
  (∀ dbId w1, truthy dbId = false → saved props dbId w1 = Ok (tt, w1)) ∧
  (∀ dbId w1, truthy dbId = true →
     let es := (if has_onDatabaseAdd props then [OnDatabaseAdd] else [])
               ++ [SetDB Reset; OnHide] in
     saved props dbId w1 = Ok (tt, logged (dispatched w1 [Reset]) es) ∧
     (∀ w0, render w1 = Ok w0 → name_typed (db w0) = true →
            render (logged (dispatched w1 [Reset]) es) = Ok (closed w1 es))).
Proof.
  intros He Hd Hs d' w'. split; [|split].
  - unfold onSave, mbind, M_bind, read_db. simpl. rewrite He, Hd.
    unfold lift. rewrite opt_trim_typed by done.
    assert (match get (Some d) database_name with
            | VString s => VString (trim s)
            | _ => VUndefined
            end = name_in_place d) as ->; [|done].
    unfold name_in_place, name_typed, get in *.
    by destruct (d !! database_name) as [[]|].
  - intros. by apply saved_falsy.
  - intros dbId w1 Hid es. split; [by apply saved_truthy|].
    intros w0 Hw0 Ht. by apply (render_after_close w1 w0).
Qed.

Lemma onSave_create_witness :
  let props := {| database := None; has_onDatabaseAdd := true |} in
  let d : object := {[ database_name := VString (lit "My DB ");
                       sqlalchemy_uri := VString (lit "postgresql://u:p@host/db") ]} in
  let d' : object := {[ database_name := VString (lit "My DB");
                        sqlalchemy_uri := VString (lit "postgresql://u:p@host/db") ]} in
  onSave props {| db := Some d; pending := []; log := [] |} =
    Ok (Some (saved props),
        {| db := Some d'; pending := []; log := [CreateResource d'] |}).
Proof.
  intros props d d'.
  assert (name_typed (Some d) = true) as Ht by by vm_compute.
  destruct (onSave_create props {| db := Some d; pending := []; log := [] |} d
              eq_refl eq_refl Ht) as (Hcall & _).
  rewrite Hcall. by vm_compute.
Defined.



(** * Further properties of the reducer *)

(** ** The normalised draft *)

Lemma trimmedState_normalised state :
  name_typed state = true → trimmedState state = Ok (normalised state).
Proof. apply trimmedState_typed. Qed.

Lemma trimmedState_ok_typed state base :
  trimmedState state = Ok base → name_typed state = true.
Proof.
  unfold trimmedState, name_typed. intros Hb.
  destruct (string_or_nullish (get state database_name)) eqn:Hs; [done|].
  apply opt_trim_raises in Hs. by rewrite Hs in Hb.
Qed.

Lemma normalised_name state :
  normalised state !! database_name = Some (VString (trimmed_name state)).
Proof.
  unfold normalised.
  rewrite lookup_insert_ne by (symmetry; apply key_database_name_uri).
  by rewrite lookup_insert_eq.
Qed.

Lemma normalised_uri state :
  normalised state !! sqlalchemy_uri =
    Some (js_or (get state sqlalchemy_uri) (VString [])).
Proof. unfold normalised. by rewrite lookup_insert_eq. Qed.

Lemma normalised_other state k :
  k ≠ database_name → k ≠ sqlalchemy_uri →
  normalised state !! k = default ∅ state !! k.
Proof. intros Hn Hu. unfold normalised. by rewrite !lookup_insert_ne. Qed.

Lemma js_or_idempotent u :
  js_or (js_or u (VString [])) (VString []) = js_or u (VString []).
Proof. unfold js_or. by destruct (truthy u) eqn:Hu; [rewrite Hu|]. Qed.

Lemma truthy_js_or u : truthy (js_or u (VString [])) = truthy u.
Proof. unfold js_or. by destruct (truthy u) eqn:Hu. Qed.

Lemma trimmed_name_trimmed state : trimmed (trimmed_name state).
Proof.
  unfold trimmed_name. destruct (get state database_name); try done.
  apply trim_trimmed.
Qed.

(** A draft whose name is trimmed and whose URI is defaulted is its own
    normal form. *)
Lemma normalised_fixed (m : object) n u :
  m !! database_name = Some (VString n) → trimmed n →
  m !! sqlalchemy_uri = Some u → js_or u (VString []) = u →
  normalised (Some m) = m.
Proof.
  intros Hn Ht Hu Hor. unfold normalised, trimmed_name, get. simpl.
  rewrite Hn, Hu. simpl. rewrite Hor, (trim_fixed n Ht).
  rewrite (insert_id m database_name) by done. by apply insert_id.
Qed.

Lemma normalised_idempotent state :
  normalised (Some (normalised state)) = normalised state.
Proof.
  eapply normalised_fixed.
  - apply normalised_name.
  - apply trimmed_name_trimmed.
  - apply normalised_uri.
  - apply js_or_idempotent.
Qed.

(** Writing one property over a normalised draft and normalising again
    changes nothing elsewhere. *)
Lemma normalised_after_write state k v i :
  i ≠ k →
  normalised (Some (<[k := v]> (normalised state))) !! i = normalised state !! i.
Proof.
  intros Hi.
  destruct (decide (i = sqlalchemy_uri)) as [->|Hu];
    [|destruct (decide (i = database_name)) as [->|Hn]].
  - rewrite !normalised_uri. unfold get at 1. simpl.
    rewrite lookup_insert_ne by done. rewrite normalised_uri. simpl.
    by rewrite js_or_idempotent.
  - rewrite !normalised_name. unfold trimmed_name at 1, get at 1. simpl.
    rewrite lookup_insert_ne by done. rewrite normalised_name. simpl.
    by rewrite (trim_fixed _ (trimmed_name_trimmed state)).
  - rewrite normalised_other by done. simpl.
    by rewrite lookup_insert_ne.
Qed.

Lemma normalised_unrelated state k v :
  k ≠ database_name → k ≠ sqlalchemy_uri →
  normalised (Some (<[k := v]> (normalised state))) = <[k := v]> (normalised state).
Proof.
  intros Hn Hu. apply map_eq. intros i. destruct (decide (i = k)) as [->|Hi].
  - rewrite normalised_other by done. done.
  - rewrite normalised_after_write by done. by rewrite lookup_insert_ne.
Qed.

Lemma dbReducer_field state action k v :
  written action = Some (k, v) →
  name_typed state = true →
  dbReducer state action = Ok (Some (<[k := v]> (normalised state))).
Proof. apply dbReducer_written. Qed.

Lemma written_typed state k v :
  (k = database_name → string_or_nullish v = true) →
  name_typed (Some (<[k := v]> (normalised state))) = true.
Proof.
  intros Hv. unfold name_typed, get. destruct (decide (k = database_name)) as [->|Hk].
  - rewrite lookup_insert_eq. by apply Hv.
  - rewrite lookup_insert_ne by done. by rewrite normalised_name.
Qed.

(** X1. Normalising is idempotent: the base the reducer builds from a
    draft is the base it builds from that base. *)
Theorem trimmedState_idempotent (state : option object) (base : object) :
  trimmedState state = Ok base →
  trimmedState (Some base) = Ok base.
Proof.
  intros Hb. pose proof (trimmedState_ok_typed _ _ Hb) as Hs.
  rewrite trimmedState_normalised in Hb by done. injection Hb as <-.
  rewrite trimmedState_normalised.
  - by rewrite normalised_idempotent.
  - unfold name_typed, get. by rewrite normalised_name.
Qed.

Lemma trimmedState_idempotent_witness :
  let base : object := {[ database_name := VString (lit "Prod");
                          sqlalchemy_uri := VString []; id := VNumber 7 ]} in
  trimmedState (Some base) = Ok base.
Proof.
  intros base.
  apply (trimmedState_idempotent
           (Some {[ database_name := VString (lit "  Prod "); id := VNumber 7 ]})).
  by vm_compute.
Defined.

(** ** Merges *)

Lemma dbReducer_merge state action payload :
  action = InitialLoad payload ∨ action = Fetched payload →
  name_typed state = true →
  dbReducer state action = Ok (Some (payload ∪ normalised state)).
Proof.
  intros Ha Hs. unfold dbReducer. rewrite trimmedState_normalised by done.
  by destruct Ha as [-> | ->].
Qed.

(** X2. A merge, at the initial load or after the fetch, stores every
    property of its payload as the payload has it (a name is not trimmed,
    an [undefined] is stored); the properties the payload lacks are those
    of the normalised draft, and no property is lost. *)
Theorem merge_payload_wins
    (state : option object) (payload : object) (action : DBReducerActionType) :
  action = InitialLoad payload ∨ action = Fetched payload →
  name_typed state = true →
  ∃ d : object,
    dbReducer state action = Ok (Some d) ∧
    payload ⊆ d ∧
    (∀ k, payload !! k = None → d !! k = normalised state !! k) ∧
    dom d = dom payload ∪ dom (default ∅ state) ∪ {[database_name; sqlalchemy_uri]}.
Proof.
  intros Ha Hs. eexists. split; [by apply dbReducer_merge|].
  split; [apply map_union_subseteq_l|]. split.
  - intros k Hk. by rewrite lookup_union_r.
  - unfold normalised. rewrite dom_union_L, !dom_insert_L.
    apply set_eq. intros k. rewrite !elem_of_union, !elem_of_singleton. tauto.
Qed.

Lemma merge_payload_wins_witness :
  let record : object :=
    {[ id := VNumber 7; database_name := VString (lit " Prod ") ]} in
  ∃ d : object,
    dbReducer None (InitialLoad record) = Ok (Some d) ∧
    d !! database_name = Some (VString (lit " Prod ")) ∧
    d !! sqlalchemy_uri = Some (VString []).
Proof.
  intros record.
  destruct (merge_payload_wins None record (InitialLoad record))
    as (d & Hd & Hsub & Hrest & _); [by left|done|].
  exists d. split; [exact Hd|]. split.
  - eapply lookup_weaken; [|exact Hsub]. by vm_compute.
  - rewrite Hrest by by vm_compute. by vm_compute.
Defined.

(** ** Field changes *)

(** X3. Of two field changes in a row to the same property only the last
    counts: the draft is the one the last change alone would have left. *)
Theorem same_field_last_write_wins
    (state : option object) (a1 a2 : DBReducerActionType)
    (k : jsstring) (v1 v2 : JSValue) :
  written a1 = Some (k, v1) →
  written a2 = Some (k, v2) →
  name_typed state = true →
  name_preserving a1 = true →
  reduce_all state [a1; a2] = reduce_all state [a2] ∧
  reduce_all state [a2] = Ok (Some (<[k := v2]> (normalised state))).
Proof.
  intros Hw1 Hw2 Hs Hp. simpl.
  rewrite (dbReducer_field state a1 k v1), (dbReducer_field state a2 k v2) by done.
  rewrite (dbReducer_field _ a2 k v2); [|done|].
  - split; [|done]. do 2 f_equal. apply map_eq. intros i.
    destruct (decide (i = k)) as [->|Hi].
    + by rewrite !lookup_insert_eq.
    + rewrite !lookup_insert_ne by done. by apply normalised_after_write.
  - apply written_typed. intros ->. unfold name_preserving in Hp.
    rewrite Hw1 in Hp. by rewrite decide_True in Hp.
Qed.

Lemma same_field_last_write_wins_witness :
  let typed (v : jsstring) :=
    InputChange {| target := None; name := database_name;
                   json := VUndefined; type := Some (lit "text");
                   checked := Some false; value := Some v |} in
  reduce_all None [typed (lit "My "); typed (lit "My D")]
  = reduce_all None [typed (lit "My D")].
Proof.
  intros typed.
  by destruct (same_field_last_write_wins None (typed (lit "My ")) (typed (lit "My D"))
                 database_name (VString (lit "My ")) (VString (lit "My D"))
                 eq_refl eq_refl eq_refl eq_refl).
Defined.

(** X4. Field changes to two different properties, neither of them the
    name or the URI, commute. *)
Theorem unrelated_fields_commute
    (state : option object) (a1 a2 : DBReducerActionType)
    (k1 k2 : jsstring) (v1 v2 : JSValue) :
  written a1 = Some (k1, v1) →
  written a2 = Some (k2, v2) →
  k1 ≠ k2 →
  k1 ≠ database_name → k1 ≠ sqlalchemy_uri →
  k2 ≠ database_name → k2 ≠ sqlalchemy_uri →
  name_typed state = true →
  reduce_all state [a1; a2] = reduce_all state [a2; a1] ∧
  reduce_all state [a1; a2] =
    Ok (Some (<[k2 := v2]> (<[k1 := v1]> (normalised state)))).
Proof.
  intros Hw1 Hw2 Hk Hn1 Hu1 Hn2 Hu2 Hs. simpl.
  rewrite (dbReducer_field state a1 k1 v1), (dbReducer_field state a2 k2 v2) by done.
  rewrite (dbReducer_field _ a2 k2 v2), (dbReducer_field _ a1 k1 v1);
    try done; try (by apply written_typed).
  rewrite !normalised_unrelated by done.
  split; [|done]. do 2 f_equal. by apply insert_insert_ne.
Qed.

Lemma unrelated_fields_commute_witness :
  let check := InputChange {| target := None; name := impersonate_user;
                              json := VUndefined; type := Some (lit "checkbox");
                              checked := Some true; value := Some (lit "on") |} in
  let cert := TextChange {| target := None; name := server_cert;
                            json := VUndefined; type := None;
                            checked := None; value := Some (lit "X") |} in
  reduce_all None [check; cert] = reduce_all None [cert; check].
Proof.
  intros check cert.
  by destruct (unrelated_fields_commute None check cert impersonate_user server_cert
                 (VBool true) (VString (lit "X")) eq_refl eq_refl
                 ltac:(distinct_keys) ltac:(distinct_keys) ltac:(distinct_keys)
                 ltac:(distinct_keys) ltac:(distinct_keys) eq_refl).
Defined.

(** ** The name stays a string *)

Lemma name_safe_step state action :
  name_typed state = true →
  name_safe action = true →
  ∃ state', dbReducer state action = Ok state' ∧ name_typed state' = true.
Proof.
  intros Hs Ha.
  assert (written action = None ∨ name_preserving action = true) as [Hw|Hp].
  { destruct action; auto. }
  - destruct action; try done.
    + eexists. split; [by apply (dbReducer_merge _ _ payload); [right|]|].
      unfold name_typed, get in *. simpl in Ha.
      destruct (payload !! database_name) as [v|] eqn:Hv.
      * by rewrite (lookup_union_Some_l _ _ _ v).
      * rewrite lookup_union_r by done. by rewrite normalised_name.
    + eexists. split; [by apply (dbReducer_merge _ _ payload); [left|]|].
      unfold name_typed, get in *. simpl in Ha.
      destruct (payload !! database_name) as [v|] eqn:Hv.
      * by rewrite (lookup_union_Some_l _ _ _ v).
      * rewrite lookup_union_r by done. by rewrite normalised_name.
    + eexists. split; [by apply reset_reduces_to_empty|done].
    + exists (Some ∅). split; [|done]. unfold dbReducer.
      by rewrite trimmedState_normalised.
  - destruct (name_preserving_step state action Hs Hp) as (d & Hd & Ht).
    by exists (Some d).
Qed.

Lemma name_safe_reduce state actions :
  name_typed state = true →
  Forall (λ a, name_safe a = true) actions →
  ∃ state', reduce_all state actions = Ok state' ∧ name_typed state' = true.
Proof.
  intros Hs Hall. revert state Hs.
  induction Hall as [|a actions Ha _ IH]; intros state Hs; [by exists state|].
  destruct (name_safe_step state a Hs Ha) as (s1 & Hs1 & Ht).
  simpl. rewrite Hs1. by apply IH.
Qed.

(** X5. The reducer keeps the name of the draft a string: from a draft
    whose name is one, through any actions of which none writes another
    kind of value as the name, no reduction raises, and the name is a
    string (or absent) after each action of the run. *)
Theorem name_safe_run
    (state : option object) (actions before after : list DBReducerActionType) :
  name_typed state = true →
  Forall (λ a, name_safe a = true) actions →
  actions = before ++ after →
  ∃ middle final,
    reduce_all state before = Ok middle ∧ name_typed middle = true ∧
    reduce_all state actions = Ok final ∧ name_typed final = true.
Proof.
  intros Hs Hall ->. pose proof Hall as Hboth.
  apply Forall_app in Hboth as [Hb Ha].
  destruct (name_safe_reduce state before Hs Hb) as (middle & Hm & Htm).
  destruct (name_safe_reduce state (before ++ after) Hs Hall) as (final & Hf & Htf).
  by exists middle, final.
Qed.

Lemma name_safe_run_witness :
  let record : object := {[ id := VNumber 7; database_name := VString (lit "Prod") ]} in
  let check := InputChange {| target := None; name := impersonate_user;
                              json := VUndefined; type := Some (lit "checkbox");
                              checked := Some true; value := Some (lit "on") |} in
  ∃ middle final,
    reduce_all (Some record) [InitialLoad record; check] = Ok middle ∧
    name_typed middle = true ∧
    reduce_all (Some record)
      [InitialLoad record; check; Fetched (fetched_payload ∅); Reset; check]
    = Ok final ∧ name_typed final = true.
Proof.
  intros record check.
  apply (name_safe_run (Some record) _ [InitialLoad record; check]
           [Fetched (fetched_payload ∅); Reset; check]);
    [by vm_compute| |done].
  repeat (apply Forall_cons_2; [by vm_compute|]). apply Forall_nil_2.
Defined.

(** ** The reducer and the save button *)

Lemma disableSave_normal (d : object) n u :
  d !! database_name = Some (VString n) → trimmed n →
  d !! sqlalchemy_uri = Some u →
  disableSave (Some d) = Ok (match n with [] => true | _ => negb (truthy u) end).
Proof.
  intros Hn Ht Hu. rewrite disableSave_typed.
  - unfold trimmed_name, get. rewrite Hn, Hu. simpl. by rewrite (trim_fixed n Ht).
  - unfold name_typed, get. by rewrite Hn.
Qed.

(** X6. A field change to a property other than the name and the URI does
    not change whether save is disabled. *)
Theorem unrelated_edit_keeps_disableSave
    (state : option object) (action : DBReducerActionType)
    (k : jsstring) (v : JSValue) :
  written action = Some (k, v) →
  k ≠ database_name →
  k ≠ sqlalchemy_uri →
  name_typed state = true →
  ∃ d : object,
    dbReducer state action = Ok (Some d) ∧
    disableSave (Some d) = disableSave state.
Proof.
  intros Hw Hn Hu Hs. eexists. split; [by apply dbReducer_field|].
  rewrite (disableSave_normal _ (trimmed_name state)
             (js_or (get state sqlalchemy_uri) (VString []))).
  - rewrite truthy_js_or. by rewrite disableSave_typed.
  - rewrite lookup_insert_ne by done. apply normalised_name.
  - apply trimmed_name_trimmed.
  - rewrite lookup_insert_ne by done. apply normalised_uri.
Qed.

Lemma unrelated_edit_keeps_disableSave_witness :
  let draft : object := {[ database_name := VString (lit "My DB ");
                           sqlalchemy_uri := VString (lit "mysql://host/db") ]} in
  let check := InputChange {| target := None; name := impersonate_user;
                              json := VUndefined; type := Some (lit "checkbox");
                              checked := Some true; value := Some (lit "on") |} in
  ∃ d : object,
    dbReducer (Some draft) check = Ok (Some d) ∧
    disableSave (Some d) = Ok false.
Proof.
  intros draft check.
  destruct (unrelated_edit_keeps_disableSave (Some draft) check impersonate_user
              (VBool true) eq_refl ltac:(distinct_keys) ltac:(distinct_keys))
    as (d & Hd & Hsave); [by vm_compute|].
  exists d. split; [exact Hd|]. rewrite Hsave. by vm_compute.
Defined.

(** X7. After the merge of the fetched record the URI of the draft is the
    fetched one, whatever the user had typed: a fetched record without a
    URI disables save, and one with a URI enables it when the draft has a
    name. *)
Theorem fetched_uri_decides_save (state : option object) (dbFetched : object) :
  name_typed state = true →
  ∃ d : object,
    dbReducer state (Fetched (fetched_payload dbFetched)) = Ok (Some d) ∧
    d !! sqlalchemy_uri = Some (get (Some dbFetched) sqlalchemy_uri) ∧
    (truthy (get (Some dbFetched) sqlalchemy_uri) = false →
     disableSave (Some d) = Ok true) ∧
    (truthy (get (Some dbFetched) sqlalchemy_uri) = true →
     trimmed_name state ≠ [] →
     disableSave (Some d) = Ok false).
Proof.
  intros Hs. eexists. split; [by apply (dbReducer_merge _ _ _ (or_intror eq_refl))|].
  assert ((fetched_payload dbFetched ∪ normalised state) !! sqlalchemy_uri
          = Some (get (Some dbFetched) sqlalchemy_uri)) as Hu.
  { apply lookup_union_Some_l, fetched_payload_inside.
    unfold fetched_keys. rewrite !elem_of_cons. auto. }
  assert ((fetched_payload dbFetched ∪ normalised state) !! database_name
          = Some (VString (trimmed_name state))) as Hn.
  { rewrite lookup_union_r by apply fetched_payload_outside, database_name_not_fetched.
    apply normalised_name. }
  split; [exact Hu|].
  rewrite (disableSave_normal _ _ _ Hn (trimmed_name_trimmed state) Hu).
  split.
  - intros ->. by destruct (trimmed_name state).
  - intros -> Hne. by destruct (trimmed_name state).
Qed.

Lemma fetched_uri_decides_save_witness :
  let draft : object := {[ database_name := VString (lit "Prod");
                           sqlalchemy_uri := VString (lit "mysql://typed") ]} in
  let response : object := {[ extra := VString (lit "{}") ]} in
  ∃ d : object,
    dbReducer (Some draft) (Fetched (fetched_payload response)) = Ok (Some d) ∧
    d !! sqlalchemy_uri = Some VUndefined ∧
    disableSave (Some d) = Ok true.
Proof.
  intros draft response.
  destruct (fetched_uri_decides_save (Some draft) response)
    as (d & Hd & Hu & Hoff & _); [by vm_compute|].
  exists d. split; [exact Hd|]. split; [by rewrite Hu|].
  apply Hoff. by vm_compute.
Defined.

(** * Further properties of the component *)

(** ** Testing the connection *)

Lemma disableSave_enabled db :
  disableSave db = Ok false →
  ∃ s, get db database_name = VString s ∧ trim s ≠ [] ∧
       truthy (get db sqlalchemy_uri) = true.
Proof.
  unfold disableSave, js_and. intros Hd.
  destruct (get db database_name) as [| | | |s|]; try done.
  exists s. split; [done|]. simpl in Hd.
  destruct (trim s) as [|c t]; [done|]. split; [done|].
  injection Hd as Hd. by apply negb_false_iff in Hd.
Qed.

(** X8. [testConnection] never touches the draft and never dispatches:
    when it returns it has made one call, the error toast or the test, and
    nothing else has changed. It raises exactly when the draft has a URI
    and a name that is not a string. *)
Theorem testConnection_frame (w : World) :
  (testConnection w = TypeError ↔
   truthy (get (db w) sqlalchemy_uri) = true ∧ name_typed (db w) = false) ∧
  (∀ w', testConnection w = Ok (tt, w') →
     db w' = db w ∧ pending w' = pending w ∧
     ∃ e, log w' = log w ++ [e] ∧
          ((∃ msg, e = AddDangerToast msg) ∨ (∃ c, e = TestDatabaseConnection c))).
Proof.
  unfold testConnection, mbind, M_bind, read_db, lift, emit, name_typed. simpl.
  destruct (truthy (get (db w) sqlalchemy_uri)); simpl.
  - destruct (opt_trim (get (db w) database_name)) as [n|] eqn:Hn.
    + split.
      * split; [done|]. intros [_ Hs]. apply opt_trim_raises in Hs. congruence.
      * intros w' [= <-]. simpl. eauto 8.
    + split; [|done]. split; [|done]. intros _. split; [done|].
      by apply opt_trim_raises.
  - split; [by split; [|intros []]|].
    intros w' [= <-]. simpl. eauto 8.
Qed.

Lemma testConnection_frame_witness :
  let w := {| db := Some {[ database_name := VBool true;
                            sqlalchemy_uri := VString (lit "mysql://host/db") ]};
              pending := [Reset]; log := [] |} in
  testConnection w = TypeError.
Proof.
  intros w. destruct (testConnection_frame w) as [Hraise _].
  apply Hraise. by vm_compute.
Defined.



(** ** Saving *)

Lemma name_in_place_again (d : object) :
  name_in_place (<[database_name := name_in_place d]> d) = name_in_place d.
Proof.
  unfold name_in_place. rewrite lookup_insert_eq.
  destruct (d !! database_name) as [[| | | |s|]|]; try done.
  by rewrite trim_idempotent.
Qed.

Lemma onSave_create_world props w d :
  isEditMode props = false →
  db w = Some d →
  name_typed (Some d) = true →
  onSave props w =
    Ok (Some (saved props),
        logged {| db := Some (<[database_name := name_in_place d]> d);
                  pending := pending w; log := log w |}
               [CreateResource (<[database_name := name_in_place d]> d)]).
Proof.
  intros He Hd Hs. unfold onSave, mbind, M_bind, read_db, lift. simpl.
  rewrite He, Hd. rewrite opt_trim_typed by done.
  assert (match get (Some d) database_name with
          | VString s => VString (trim s)
          | _ => VUndefined
          end = name_in_place d) as ->; [|done].
  unfold name_in_place, name_typed, get in *.
  by destruct (d !! database_name) as [[]|].
Qed.

(** X10. What an enabled save creates: in create mode, when save is not
    disabled, the record passed to the create operation has a name that is
    a string, not empty and without whitespace at either end, and is the
    draft in every other property. *)
Theorem enabled_create_payload (props : DatabaseModalProps) (w : World) (d : object) :
  isEditMode props = false →
  db w = Some d →
  disableSave (Some d) = Ok false →
  ∃ (d' : object) (n : jsstring),
    onSave props w =
      Ok (Some (saved props),
          logged {| db := Some d'; pending := pending w; log := log w |}
                 [CreateResource d']) ∧
    d' !! database_name = Some (VString n) ∧ n ≠ [] ∧ trimmed n ∧
    (∀ k, k ≠ database_name → d' !! k = d !! k) ∧
    disableSave (Some d') = Ok false.
Proof.
  intros He Hd Hen. destruct (disableSave_enabled _ Hen) as (s & Hs & Hne & Hu).
  assert (d !! database_name = Some (VString s)) as Hlook.
  { unfold get in Hs. by destruct (d !! database_name) as [v|]; simpl in Hs; subst. }
  exists (<[database_name := name_in_place d]> d), (trim s).
  split; [apply onSave_create_world; try done; unfold name_typed; by rewrite Hs|].
  unfold name_in_place. rewrite Hlook.
  split; [by rewrite lookup_insert_eq|]. split; [done|].
  split; [apply trim_trimmed|]. split.
  - intros k Hk. by rewrite lookup_insert_ne.
  - unfold disableSave, get in *. rewrite lookup_insert_eq.
    rewrite lookup_insert_ne by apply key_database_name_uri.
    simpl. rewrite trim_idempotent. unfold js_and.
    destruct (trim s); [done|]. simpl. by rewrite Hu.
Qed.

Lemma enabled_create_payload_witness :
  let props := {| database := None; has_onDatabaseAdd := false |} in
  let d : object := {[ database_name := VString (lit " My DB ");
                       sqlalchemy_uri := VString (lit "mysql://host/db") ]} in
  ∃ (d' : object) (n : jsstring),
    onSave props {| db := Some d; pending := []; log := [] |} =
      Ok (Some (saved props),
          {| db := Some d'; pending := []; log := [CreateResource d'] |}) ∧
    d' !! database_name = Some (VString n) ∧ trimmed n.
Proof.
  intros props d.
  destruct (enabled_create_payload props {| db := Some d; pending := []; log := [] |} d
              eq_refl eq_refl) as (d' & n & Hcall & Hn & _ & Ht & _); [by vm_compute|].
  by exists d', n.
Defined.

(** X11. Nothing in [onSave] guards against a second save while the first
    request is pending: in create mode the second call passes the create
    operation the same record again and leaves the draft as the first call
    left it. *)
Theorem onSave_create_again (props : DatabaseModalProps) (w : World) (d : object) :
  isEditMode props = false →
  db w = Some d →
  name_typed (Some d) = true →
  ∃ (d' : object) (w1 : World),
    onSave props w = Ok (Some (saved props), w1) ∧
    db w1 = Some d' ∧
    log w1 = log w ++ [CreateResource d'] ∧
    onSave props w1 = Ok (Some (saved props), logged w1 [CreateResource d']).
Proof.
  intros He Hd Hs. eexists _, _.
  split; [by apply onSave_create_world|]. split; [done|]. split; [done|].
  rewrite (onSave_create_world props _ (<[database_name := name_in_place d]> d));
    try done.
  - rewrite name_in_place_again. by rewrite insert_insert_eq.
  - unfold name_typed, get, name_in_place. rewrite lookup_insert_eq.
    by destruct (d !! database_name) as [[]|].
Qed.

Lemma onSave_create_again_witness :
  let props := {| database := None; has_onDatabaseAdd := false |} in
  let d : object := {[ database_name := VString (lit " My DB ") ]} in
  let w := {| db := Some d; pending := []; log := [] |} in
  ∃ (d' : object) (w1 : World),
    onSave props w = Ok (Some (saved props), w1) ∧
    db w1 = Some d' ∧
    log w1 = log w ++ [CreateResource d'] ∧
    onSave props w1 = Ok (Some (saved props), logged w1 [CreateResource d']).
Proof.
  intros props d w.
  apply (onSave_create_again props w d eq_refl eq_refl). by vm_compute.
Defined.

(** X12. [onSave] never dispatches to the reducer. In edit mode it never
    raises and never changes the draft; in create mode it does nothing
    while the draft is [null], and raises exactly on a draft whose name is
    not a string. *)
Theorem onSave_frame (props : DatabaseModalProps) (w : World) :
  (∀ k w', onSave props w = Ok (k, w') → pending w' = pending w) ∧
  (isEditMode props = true →
   ∃ k w', onSave props w = Ok (k, w') ∧ db w' = db w) ∧
  (isEditMode props = false → db w = None → onSave props w = Ok (None, w)) ∧
  (onSave props w = TypeError ↔
   isEditMode props = false ∧ ∃ d, db w = Some d ∧ name_typed (Some d) = false).
Proof.
  unfold onSave, mbind, M_bind, mret, M_ret, read_db, lift, emit, write_db,
    name_typed. simpl.
  destruct (isEditMode props).
  - destruct (truthy (get (db w) id)); simpl.
    + split; [intros k w' ?; by simplify_eq|]. split; [by eexists _, _|].
      split; [done|]. split; [done|by intros []].
    + split; [intros k w' ?; by simplify_eq|]. split; [by eexists _, _|].
      split; [done|]. split; [done|by intros []].
  - destruct (db w) as [d|] eqn:Hd; simpl.
    + destruct (opt_trim (default VUndefined (d !! database_name)))
        as [n|] eqn:Hn; simpl.
      * split; [intros k w' ?; by simplify_eq|]. split; [done|]. split; [done|].
        split; [done|]. intros [_ (d0 & [= <-] & Hs)].
        apply opt_trim_raises in Hs. congruence.
      * split; [done|]. split; [done|]. split; [done|]. split; [|done].
        intros _. split; [done|]. exists d. split; [done|].
        by apply opt_trim_raises.
    + split; [intros k w' ?; by simplify_eq|]. split; [done|]. split; [done|].
      split; [done|]. by intros [_ (d & ? & _)].
Qed.

Lemma onSave_frame_witness :
  let props := {| database := None; has_onDatabaseAdd := true |} in
  let w := {| db := None; pending := [Reset]; log := [] |} in
  onSave props w = Ok (None, w).
Proof.
  intros props w. destruct (onSave_frame props w) as (_ & _ & Hnull & _).
  by apply Hnull.
Defined.

(** ** The effect on [show] and [database] *)

(** X13. The effect asks for the record exactly when the modal is shown
    with a record that has an identifier and no fetch is loading, and then
    for that identifier itself (the fallback [0] is never used). It sets
    the tab to the default when the modal is shown and leaves it otherwise;
    without a record it touches neither the draft nor the log. *)
Theorem effect_fetches_when_shown
    (props : DatabaseModalProps) (show dbLoading : bool) (l : Lifecycle) :
  let asks := show && truthy (get (database props) id) && negb dbLoading in
  ∃ k l',
    effect_show_database props show dbLoading l = Ok (k, l') ∧
    fetches l' = fetches l ++ (if asks then [get (database props) id] else []) ∧
    (is_Some k ↔ asks = true) ∧
    tabKey l' = (if show then DEFAULT_TAB_KEY else tabKey l) ∧
    (database props = None → world l' = world l).
Proof.
  unfold effect_show_database, fetchDB, isEditMode, mbind, L_bind, mret, L_ret,
    in_world, setTabKey, fetchResource, setDB.
  destruct (database props) as [record|]; simpl.
  - destruct show; simpl.
    + destruct (truthy (default VUndefined (record !! id))) eqn:Hid; simpl.
      * destruct dbLoading; simpl.
        -- eexists _, _. split; [reflexivity|]. simpl. rewrite app_nil_r.
           split; [done|]. split; [|done]. split; [by intros []|done].
        -- eexists _, _. split; [reflexivity|]. simpl. unfold js_or.
           rewrite Hid. split; [done|]. split; [|done]. by split.
      * eexists _, _. split; [reflexivity|]. simpl. rewrite app_nil_r.
        split; [done|]. split; [|done]. split; [by intros []|done].
    + eexists _, _. split; [reflexivity|]. simpl. rewrite app_nil_r.
      split; [done|]. split; [|done]. split; [by intros []|done].
  - rewrite andb_false_r. simpl. destruct show; simpl.
    + eexists _, _. split; [reflexivity|]. simpl. rewrite app_nil_r.
      split; [done|]. split; [|done]. split; [by intros []|done].
    + eexists _, _. split; [reflexivity|]. simpl. rewrite app_nil_r.
      split; [done|]. split; [|by destruct l]. split; [by intros []|done].
Qed.

Lemma effect_fetches_when_shown_witness :
  let record : object := {[ id := VNumber 7 ]} in
  let props := {| database := Some record; has_onDatabaseAdd := false |} in
  let l := {| world := {| db := Some record; pending := []; log := [] |};
              tabKey := lit "2"; fetches := [] |} in
  ∃ k l',
    effect_show_database props true false l = Ok (k, l') ∧
    fetches l' = [VNumber 7] ∧ tabKey l' = DEFAULT_TAB_KEY.
Proof.
  intros record props l.
  destruct (effect_fetches_when_shown props true false l)
    as (k & l' & Hrun & Hf & _ & Ht & _).
  by exists k, l'.
Defined.

(** X14. Each run of the effect with a record dispatches one initial load
    of it, and at the next render every property of the record is in the
    draft as the record has it, over whatever the draft held for it; the
    other properties are those of the normalised draft. *)
Theorem effect_seeds_draft
    (props : DatabaseModalProps) (show dbLoading : bool) (l : Lifecycle)
    (record : object) (w0 : World) :
  database props = Some record →
  render (world l) = Ok w0 →
  name_typed (db w0) = true →
  ∃ k l' (d : object),
    effect_show_database props show dbLoading l = Ok (k, l') ∧
    log (world l') = log (world l) ++ [SetDB (InitialLoad record)] ∧
    render (world l') =
      Ok {| db := Some d; pending := []; log := log (world l') |} ∧
    record ⊆ d ∧
    (∀ key, record !! key = None → d !! key = normalised (db w0) !! key).
Proof.
  intros Hrec Hw0 Ht.
  assert (∃ k fs tk,
    effect_show_database props show dbLoading l =
      Ok (k, {| world := logged (dispatched (world l) [InitialLoad record])
                                [SetDB (InitialLoad record)];
                tabKey := tk; fetches := fs |})) as (k & fs & tk & Hrun).
  { unfold effect_show_database, fetchDB, isEditMode, mbind, L_bind, mret, L_ret,
      in_world, setTabKey, fetchResource, setDB.
    rewrite Hrec. simpl.
    destruct show, (truthy (default VUndefined (record !! id))), dbLoading;
      simpl; by eexists _, _, _. }
  unfold render in Hw0.
  destruct (reduce_all (db (world l)) (pending (world l))) as [s|] eqn:Hs; [|done].
  injection Hw0 as <-. simpl in Ht.
  eexists k, _, (record ∪ normalised s). split; [exact Hrun|]. simpl.
  split; [done|]. split.
  - unfold render. simpl. rewrite reduce_all_app, Hs. simpl.
    by rewrite (dbReducer_merge s _ record) by (by left || done).
  - split; [apply map_union_subseteq_l|].
    intros key Hkey. by rewrite lookup_union_r.
Qed.

Lemma effect_seeds_draft_witness :
  let record : object :=
    {[ id := VNumber 7; database_name := VString (lit "Prod") ]} in
  let props := {| database := Some record; has_onDatabaseAdd := false |} in
  let edit := TextChange {| target := None; name := database_name;
                            json := VUndefined; type := None; checked := None;
                            value := Some (lit "Edited") |} in
  let l := {| world := {| db := Some record; pending := [edit]; log := [] |};
              tabKey := lit "2"; fetches := [] |} in
  ∃ k l' (d : object),
    effect_show_database props true false l = Ok (k, l') ∧
    render (world l') = Ok {| db := Some d; pending := []; log := log (world l') |} ∧
    d !! database_name = Some (VString (lit "Prod")).
Proof.
  intros record props edit l.
  destruct (effect_seeds_draft props true false l record
              {| db := Some {[ id := VNumber 7; sqlalchemy_uri := VString [];
                               database_name := VString (lit "Edited") ]};
                 pending := []; log := [] |} eq_refl)
    as (k & l' & d & Hrun & _ & Hrender & Hsub & _); [by vm_compute..|].
  exists k, l', d. split; [exact Hrun|]. split; [exact Hrender|].
  eapply lookup_weaken; [|exact Hsub]. by vm_compute.
Defined.

(** ** The events of the form *)

Lemma handle_all_world es w :
  handle_all es w =
    Ok (tt, logged (dispatched w (map event_action es))
                   (map (λ e, SetDB (event_action e)) es)).
Proof.
  revert w. induction es as [|e es IH]; intros w.
  - unfold logged, dispatched. simpl. rewrite !app_nil_r. by destruct w.
  - simpl. unfold mbind, M_bind.
    assert (handle e w = Ok (tt, logged (dispatched w [event_action e])
                                         [SetDB (event_action e)])) as ->
      by by destruct e.
    rewrite IH. unfold logged, dispatched. simpl. by rewrite <- !app_assoc.
Qed.

Lemma js_or_string u :
  string_or_nullish u = true → ∃ x, js_or u (VString []) = VString x.
Proof. unfold js_or. destruct u as [| | | |[]|]; try done; by eexists. Qed.

Lemma event_written e :
  text_named e = true →
  ∃ v, written (event_action e) = Some (event_name e, v) ∧
       (event_name e = database_name ∨ event_name e = sqlalchemy_uri →
        ∃ x, v = VString x).
Proof.
  unfold text_named. intros Ht. destruct e as [target|target]; simpl in *.
  - eexists. split; [reflexivity|]. intros Hk.
    destruct (decide (HTMLInputElement.type target = lit "checkbox")) as [Hc|Hc].
    + rewrite bool_decide_eq_true_2 in Ht by done. simpl in Ht.
      apply negb_true_iff, orb_false_elim in Ht as [Hn Hu].
      apply bool_decide_eq_false in Hn, Hu. by destruct Hk.
    + rewrite decide_False by congruence. by eexists.
  - eexists. split; [reflexivity|]. intros _. by eexists.
Qed.

Lemma form_event_step state e :
  name_typed state = true →
  uri_typed state = true →
  text_named e = true →
  ∃ (d : object) n u,
    dbReducer state (event_action e) = Ok (Some d) ∧
    d !! database_name = Some (VString n) ∧
    d !! sqlalchemy_uri = Some (VString u).
Proof.
  intros Hn Hu Ht. destruct (event_written e Ht) as (v & Hw & Hv).
  destruct (js_or_string _ Hu) as [x Hx].
  destruct (decide (event_name e = database_name)) as [Hkn|Hkn];
    [|destruct (decide (event_name e = sqlalchemy_uri)) as [Hku|Hku]].
  - destruct Hv as [y ->]; [by left|]. eexists _, y, x.
    split; [by apply (dbReducer_field _ _ _ _ Hw)|]. rewrite Hkn. split.
    + by rewrite lookup_insert_eq.
    + rewrite lookup_insert_ne by apply key_database_name_uri.
      by rewrite normalised_uri, Hx.
  - destruct Hv as [y ->]; [by right|]. eexists _, _, y.
    split; [by apply (dbReducer_field _ _ _ _ Hw)|]. rewrite Hku. split.
    + rewrite lookup_insert_ne by (symmetry; apply key_database_name_uri).
      apply normalised_name.
    + by rewrite lookup_insert_eq.
  - eexists _, _, x. split; [by apply (dbReducer_field _ _ _ _ Hw)|]. split.
    + rewrite lookup_insert_ne by done. apply normalised_name.
    + rewrite lookup_insert_ne by done. by rewrite normalised_uri, Hx.
Qed.

Lemma form_events_run state es :
  name_typed state = true →
  uri_typed state = true →
  Forall (λ e, text_named e = true) es →
  es ≠ [] →
  ∃ (d : object) n u,
    reduce_all state (map event_action es) = Ok (Some d) ∧
    d !! database_name = Some (VString n) ∧
    d !! sqlalchemy_uri = Some (VString u).
Proof.
  intros Hn Hu Hall. revert state Hn Hu.
  induction Hall as [|e es He _ IH]; intros state Hn Hu Hne; [done|].
  destruct (form_event_step state e Hn Hu He) as (d1 & n1 & u1 & Hd1 & Hn1 & Hu1).
  simpl. rewrite Hd1. destruct es as [|e' es'].
  - simpl. by exists d1, n1, u1.
  - apply IH; [| |done].
    + unfold name_typed, get. by rewrite Hn1.
    + unfold uri_typed, get. by rewrite Hu1.
Qed.

(** X15. After any events of the form, at least one, none of them from a
    checkbox named after the name or the URI, the reducer has not raised
    and the draft has a string for a name and a string for a URI, never
    [undefined]. The handlers themselves only dispatch: one action an
    event, the draft untouched until the render. *)
Theorem form_events_keep_strings (es : list FormEvent) (w w0 : World) :
  render w = Ok w0 →
  name_typed (db w0) = true →
  uri_typed (db w0) = true →
  Forall (λ e, text_named e = true) es →
  es ≠ [] →
  ∃ (w1 : World) (d : object) n u,
    handle_all es w = Ok (tt, w1) ∧
    db w1 = db w ∧
    length (pending w1) = (length (pending w) + length es)%nat ∧
    render w1 = Ok {| db := Some d; pending := []; log := log w1 |} ∧
    d !! database_name = Some (VString n) ∧
    d !! sqlalchemy_uri = Some (VString u).
Proof.
  intros Hw0 Hn Hu Hall Hne. unfold render in Hw0.
  destruct (reduce_all (db w) (pending w)) as [s|] eqn:Hs; [|done].
  injection Hw0 as <-. simpl in Hn, Hu.
  destruct (form_events_run s es Hn Hu Hall Hne) as (d & n & u & Hd & Hdn & Hdu).
  eexists _, d, n, u. split; [apply handle_all_world|]. simpl.
  split; [done|]. split; [by rewrite length_app, length_map|].
  split; [|done]. unfold render. simpl. by rewrite reduce_all_app, Hs, Hd.
Qed.

Lemma form_events_keep_strings_witness :
  let name_box := InputEvent {| HTMLInputElement.type := lit "text";
                                HTMLInputElement.name := database_name;
                                HTMLInputElement.checked := false;
                                HTMLInputElement.value := lit " My DB" |} in
  let check := InputEvent {| HTMLInputElement.type := lit "checkbox";
                             HTMLInputElement.name := impersonate_user;
                             HTMLInputElement.checked := true;
                             HTMLInputElement.value := lit "on" |} in
  let w := {| db := None; pending := []; log := [] |} in
  ∃ (w1 : World) (d : object) n u,
    handle_all [name_box; check] w = Ok (tt, w1) ∧
    render w1 = Ok {| db := Some d; pending := []; log := log w1 |} ∧
    d !! database_name = Some (VString n) ∧
    d !! sqlalchemy_uri = Some (VString u).
Proof.
  intros name_box check w.
  destruct (form_events_keep_strings [name_box; check] w w)
    as (w1 & d & n & u & Hrun & _ & _ & Hrender & Hn & Hu); try by vm_compute.
  { repeat (apply Forall_cons_2; [by vm_compute|]). apply Forall_nil_2. }
  by exists w1, d, n, u.
Defined.

(** * How reductions compose *)

Lemma normalised_after_merge (state : option object) (payload : object) (i : jsstring) :
  payload !! i = None →
  normalised (Some (payload ∪ normalised state)) !! i = normalised state !! i.
Proof.
  intros Hi.
  destruct (decide (i = sqlalchemy_uri)) as [->|Hu];
    [|destruct (decide (i = database_name)) as [->|Hn]].
  - rewrite !normalised_uri. unfold get at 1. simpl.
    rewrite lookup_union_r by done. rewrite normalised_uri. simpl.
    by rewrite js_or_idempotent.
  - rewrite !normalised_name. unfold trimmed_name at 1, get at 1. simpl.
    rewrite lookup_union_r by done. rewrite normalised_name. simpl.
    by rewrite (trim_fixed _ (trimmed_name_trimmed state)).
  - rewrite normalised_other by done. simpl. by rewrite lookup_union_r.
Qed.

Lemma fetched_payload_dom (dbFetched : object) :
  dom (fetched_payload dbFetched) = list_to_set fetched_keys.
Proof.
  unfold fetched_payload, fetched_keys. rewrite !dom_insert_L, dom_empty_L.
  simpl. done.
Qed.

(** X16. A reset forgets what came before it: the draft after a run of
    actions depends only on the actions that follow the last reset. *)
Theorem reset_forgets
    (state : option object) (before after : list DBReducerActionType) :
  name_typed state = true →
  Forall (λ a, name_safe a = true) before →
  reduce_all state (before ++ Reset :: after) = reduce_all (Some ∅) after ∧
  reduce_all state (before ++ Reset :: after) = reduce_all None (Reset :: after).
Proof.
  intros Hs Hb.
  destruct (name_safe_reduce state before Hs Hb) as (middle & Hm & Ht).
  rewrite reduce_all_app, Hm. simpl.
  by rewrite !reset_reduces_to_empty.
Qed.

Lemma reset_forgets_witness :
  let edit := TextChange {| target := None; name := database_name;
                            json := VUndefined; type := None; checked := None;
                            value := Some (lit "Edited") |} in
  let record : object := {[ id := VNumber 7 ]} in
  reduce_all (Some record) ([InitialLoad record; edit] ++ Reset :: [edit])
  = reduce_all (Some ∅) [edit].
Proof.
  intros edit record.
  apply (reset_forgets (Some record) [InitialLoad record; edit] [edit]);
    [by vm_compute|].
  repeat (apply Forall_cons_2; [by vm_compute|]). apply Forall_nil_2.
Defined.

(** X17. A later merge supersedes an earlier one whose properties it
    covers: the draft is the one the later merge alone would have left. So
    of two fetched records in a row only the second shows, and a repeated
    initial load of the same record changes nothing further. *)
Theorem later_merge_supersedes
    (state : option object) (p1 p2 : object) (a1 a2 : DBReducerActionType) :
  a1 = InitialLoad p1 ∨ a1 = Fetched p1 →
  a2 = InitialLoad p2 ∨ a2 = Fetched p2 →
  dom p1 ⊆ dom p2 →
  name_typed state = true →
  name_safe a1 = true →
  reduce_all state [a1; a2] = reduce_all state [a2] ∧
  (∀ f1 f2,
     reduce_all state [Fetched (fetched_payload f1); Fetched (fetched_payload f2)]
     = reduce_all state [Fetched (fetched_payload f2)]).
Proof.
  assert (∀ q1 q2 b1 b2,
            b1 = InitialLoad q1 ∨ b1 = Fetched q1 →
            b2 = InitialLoad q2 ∨ b2 = Fetched q2 →
            dom q1 ⊆ dom q2 →
            name_typed state = true →
            name_safe b1 = true →
            reduce_all state [b1; b2] = reduce_all state [b2]) as Hgen.
  { intros q1 q2 b1 b2 Hb1 Hb2 Hdom Hs Hsafe. simpl.
    destruct (name_safe_step state b1 Hs Hsafe) as (s1 & Hs1 & Ht1).
    rewrite Hs1. rewrite (dbReducer_merge state b1 q1) in Hs1 by done.
    injection Hs1 as <-.
    rewrite (dbReducer_merge _ b2 q2), (dbReducer_merge state b2 q2) by done.
    do 2 f_equal. apply map_eq. intros i.
    destruct (q2 !! i) as [v|] eqn:Hi.
    - by rewrite !(lookup_union_Some_l _ _ _ v).
    - rewrite !lookup_union_r by done. apply normalised_after_merge.
      apply not_elem_of_dom. apply not_elem_of_dom in Hi.
      intros Hin. apply Hi. by apply Hdom. }
  intros Ha1 Ha2 Hdom Hs Hsafe. split; [by apply (Hgen p1 p2)|].
  intros f1 f2.
  apply (Hgen (fetched_payload f1) (fetched_payload f2));
    [by right|by right| |done|].
  - by rewrite !fetched_payload_dom.
  - unfold name_safe, get.
    by rewrite fetched_payload_outside by apply database_name_not_fetched.
Qed.

Lemma later_merge_supersedes_witness :
  let record : object :=
    {[ id := VNumber 7; database_name := VString (lit "Prod") ]} in
  reduce_all None [InitialLoad record; InitialLoad record]
  = reduce_all None [InitialLoad record].
Proof.
  intros record.
  by destruct (later_merge_supersedes None record record
                 (InitialLoad record) (InitialLoad record)
                 (or_introl eq_refl) (or_introl eq_refl)
                 ltac:(done) eq_refl ltac:(by vm_compute)).
Defined.
